(** * tcp.c: the blocking TCP dialer [tcpdial]

    A shallow embedding of [tcpdial] (src/tcp.c, lines 86-147) and the
    properties of its control flow.

    [tcpdial] is straight-line C code around four calls into the C library
    (getprotobyname, socket, getaddrinfo, connect), two memory cells (the
    thread's [errno] and the caller's [*conn]) and one loop over the linked
    list returned by getaddrinfo.  The embedding is a state monad over the
    two cells plus a chronological trace of the calls made and of the stores
    into [*conn]; the answers of the C library come from a [World] record.

    C [int] values are modelled by [Z]: the function performs no arithmetic
    on them, it only stores, compares and returns them. *)

From Stdlib Require Import ZArith List String Bool Lia.
Import ListNotations.
Local Open Scope Z_scope.

(** ** Constants of the system headers

    <sys/socket.h>, <netdb.h> and <errno.h> are not part of the repository;
    the constants that tcp.c takes from them are parameters of the model. *)

Class Platform : Type := {
  AF_UNSPEC : Z;
  AF_INET : Z;
  SOCK_STREAM : Z;
  ENOPROTOOPT : Z;
  ENETUNREACH : Z;
  ENETDOWN : Z;
  ENOMEM : Z;
  EINVAL : Z;
  ENOTCONN : Z;
  EAI_AGAIN : Z;
  EAI_FAIL : Z;
  EAI_MEMORY : Z;
  EAI_NONAME : Z;
  EAI_SERVICE : Z
}.

(** The values of Linux (glibc), used for the concrete runs below. *)
Definition linux : Platform := {|
  AF_UNSPEC := 0;
  AF_INET := 2;
  SOCK_STREAM := 1;
  ENOPROTOOPT := 92;
  ENETUNREACH := 101;
  ENETDOWN := 100;
  ENOMEM := 12;
  EINVAL := 22;
  ENOTCONN := 107;
  EAI_AGAIN := -3;
  EAI_FAIL := -4;
  EAI_MEMORY := -10;
  EAI_NONAME := -2;
  EAI_SERVICE := -8
|}.

(** C: the labels of one [switch] are pairwise distinct. *)
Definition labels_distinct (P : Platform) : Prop :=
  NoDup [EAI_AGAIN; EAI_FAIL; EAI_MEMORY; EAI_NONAME; EAI_SERVICE].

(** POSIX: error numbers are positive. *)
Definition errors_positive (P : Platform) : Prop :=
  0 < ENOPROTOOPT /\ 0 < ENETUNREACH /\ 0 < ENETDOWN /\ 0 < ENOMEM /\
  0 < EINVAL /\ 0 < ENOTCONN.

(** ** Data of the socket interface *)

(** struct protoent *)
Record protoent : Type := {
  p_name : string;
  p_aliases : list string;
  p_proto : Z
}.

(** struct sockaddr: the family tag and the raw address bytes. *)
Record sockaddr : Type := {
  sa_family : Z;
  sa_data : list Z
}.

(** struct addrinfo without [ai_next]: the chain a [struct addrinfo *]
    points to is a [list addrinfo], and NULL is [[]].  The two pointer
    fields are options, [None] being NULL. *)
Record addrinfo : Type := {
  ai_flags : Z;
  ai_family : Z;
  ai_socktype : Z;
  ai_protocol : Z;
  ai_addrlen : Z;
  ai_addr : option sockaddr;
  ai_canonname : option string
}.

(** The result of memset(&hints, 0, sizeof hints). *)
Definition addrinfo_zero : addrinfo := {|
  ai_flags := 0;
  ai_family := 0;
  ai_socktype := 0;
  ai_protocol := 0;
  ai_addrlen := 0;
  ai_addr := None;
  ai_canonname := None
|}.

Definition set_ai_family (v : Z) (a : addrinfo) : addrinfo :=
  {| ai_flags := ai_flags a; ai_family := v; ai_socktype := ai_socktype a;
     ai_protocol := ai_protocol a; ai_addrlen := ai_addrlen a;
     ai_addr := ai_addr a; ai_canonname := ai_canonname a |}.

Definition set_ai_socktype (v : Z) (a : addrinfo) : addrinfo :=
  {| ai_flags := ai_flags a; ai_family := ai_family a; ai_socktype := v;
     ai_protocol := ai_protocol a; ai_addrlen := ai_addrlen a;
     ai_addr := ai_addr a; ai_canonname := ai_canonname a |}.

Definition set_ai_protocol (v : Z) (a : addrinfo) : addrinfo :=
  {| ai_flags := ai_flags a; ai_family := ai_family a;
     ai_socktype := ai_socktype a; ai_protocol := v;
     ai_addrlen := ai_addrlen a; ai_addr := ai_addr a;
     ai_canonname := ai_canonname a |}.

(** ** The C library as seen by [tcpdial] *)

(** A call that reports failure through [errno]: the value returned and the
    value the call leaves in [errno], if it writes one. *)
Record sysret : Type := {
  rv : Z;
  sets_errno : option Z
}.

(** The answers of the C library to the four calls.  An answer depends on
    the arguments of the call only; the chain written through the last
    argument of getaddrinfo() is the second component of its answer. *)
Record World : Type := {
  getprotobyname_r : string -> option protoent;
  socket_r : Z -> Z -> Z -> sysret;
  getaddrinfo_r : string -> string -> addrinfo -> Z * list addrinfo;
  connect_r : Z -> option sockaddr -> Z -> sysret
}.

(** POSIX: socket() returns -1 exactly when it fails, and then sets [errno]
    to a (positive) error number. *)
Definition posix_world (W : World) : Prop :=
  forall d t p, rv (socket_r W d t p) = -1 ->
    exists e, sets_errno (socket_r W d t p) = Some e /\ 0 < e.

(** ** Observable behaviour *)

(** The calls into the C library, with their arguments and results, and the
    stores into the caller's [*conn].  close(2) belongs to the alphabet so
    that the life of a descriptor can be read off a trace. *)
Inductive event : Type :=
| EvGetprotobyname (name : string) (r : option protoent)
| EvSocket (domain type protocol : Z) (r : Z)
| EvGetaddrinfo (node service : string) (hints : addrinfo)
                (r : Z) (res : list addrinfo)
| EvConnect (sockfd : Z) (addr : option sockaddr) (addrlen : Z) (r : Z)
| EvClose (fd : Z)
| EvStoreConn (v : Z).

(** The memory [tcpdial] works on: [errno], the cell [conn] points to
    (the caller passes a valid pointer), and what has been observed. *)
Record state : Type := {
  errno : Z;
  conn : Z;
  trace : list event
}.

(** ** The state monad *)

Definition M (A : Type) : Type := state -> A * state.

Definition ret {A : Type} (a : A) : M A := fun s => (a, s).

Definition bind {A B : Type} (m : M A) (k : A -> M B) : M B :=
  fun s => let (a, s') := m s in k a s'.

Declare Scope dial_scope.
Delimit Scope dial_scope with dial.
Notation "x <- m ;; k" := (bind m (fun x => k))
  (at level 100, m at next level, right associativity) : dial_scope.
Notation "m ;; k" := (bind m (fun _ => k))
  (at level 100, right associativity) : dial_scope.
Local Open Scope dial_scope.

Definition load_errno : M Z := fun s => (errno s, s).

Definition store_errno (v : Z) : M unit :=
  fun s => (tt, {| errno := v; conn := conn s; trace := trace s |}).

Definition load_conn : M Z := fun s => (conn s, s).

Definition store_conn (v : Z) : M unit :=
  fun s => (tt, {| errno := errno s; conn := v;
                   trace := trace s ++ [EvStoreConn v] |}).

Definition log (e : event) (s : state) : state :=
  {| errno := errno s; conn := conn s; trace := trace s ++ [e] |}.

Definition leave_errno (r : sysret) (s : state) : state :=
  match sets_errno r with
  | Some e => {| errno := e; conn := conn s; trace := trace s |}
  | None => s
  end.

Section Dial.

Context {P : Platform}.
Variable W : World.

Definition getprotobyname (name : string) : M (option protoent) :=
  fun s => let r := getprotobyname_r W name in
           (r, log (EvGetprotobyname name r) s).

Definition socket (domain type protocol : Z) : M Z :=
  fun s => let r := socket_r W domain type protocol in
           (rv r, log (EvSocket domain type protocol (rv r)) (leave_errno r s)).

Definition getaddrinfo (node service : string) (hints : addrinfo)
  : M (Z * list addrinfo) :=
  fun s => let r := getaddrinfo_r W node service hints in
           (r, log (EvGetaddrinfo node service hints (fst r) (snd r)) s).

Definition connect (sockfd : Z) (addr : option sockaddr) (addrlen : Z) : M Z :=
  fun s => let r := connect_r W sockfd addr addrlen in
           (rv r, log (EvConnect sockfd addr addrlen (rv r)) (leave_errno r s)).

(** The hints of lines 103-107: zeroed, then three fields assigned. *)
Definition tcphints (tcpproto : protoent) : addrinfo :=
  set_ai_protocol (p_proto tcpproto)
    (set_ai_socktype SOCK_STREAM
      (set_ai_family AF_UNSPEC addrinfo_zero)).

(** The [switch(errno)] of lines 110-126. *)
Definition translate_resolver_error : M unit :=
  e <- load_errno ;;
  if e =? EAI_AGAIN then store_errno ENETUNREACH
  else if e =? EAI_FAIL then store_errno ENETDOWN
  else if e =? EAI_MEMORY then store_errno ENOMEM
  else if (e =? EAI_NONAME) || (e =? EAI_SERVICE) then store_errno EINVAL
  else ret tt.

(** The [for] loop of lines 132-140.  The loop variable [addri] is the rest
    of the chain from the current node on; the value of the loop is [addri]
    at exit: [[]] (NULL) after the last node, the node of the [break]
    otherwise. *)
Fixpoint connect_loop (addri : list addrinfo) : M (list addrinfo) :=
  match addri with
  | [] => ret []
  | ai :: ai_next =>
      fd <- load_conn ;;
      retcon <- connect fd (ai_addr ai) (ai_addrlen ai) ;;
      if negb (retcon =? 0) then connect_loop ai_next
      else ret addri
  end.

(** [tcpdial], lines 86-147.  The value of the computation is the value
    the C function returns; [return errno] is a load of [errno]. *)
Definition tcpdial (host port : string) : M Z :=
  tcpproto <- getprotobyname "tcp"%string ;;
  match tcpproto with
  | None =>
      store_errno ENOPROTOOPT ;;
      load_errno
  | Some tcpproto =>
      fd <- socket AF_INET SOCK_STREAM (p_proto tcpproto) ;;
      store_conn fd ;;
      c <- load_conn ;;
      if c =? -1 then load_errno
      else
        r <- getaddrinfo host port (tcphints tcpproto) ;;
        let tcpsockaddr := snd r in
        store_errno (fst r) ;;
        e <- load_errno ;;
        if negb (e =? 0) then
          translate_resolver_error ;;
          load_errno
        else
          addri <- connect_loop tcpsockaddr ;;
          match addri with
          | [] =>
              store_errno ENOTCONN ;;
              load_errno
          | _ :: _ => ret 0
          end
  end.

End Dial.

(** ** Reading a trace *)

(** A run of [tcpdial] from state [s]: the value returned and the state
    left behind. *)
Definition returned {P : Platform} (W : World) (host port : string)
  (s : state) : Z :=
  fst (tcpdial W host port s).

Definition final {P : Platform} (W : World) (host port : string)
  (s : state) : state :=
  snd (tcpdial W host port s).

(** The descriptors handed out by successful socket() calls. *)
Fixpoint sockets_created (tr : list event) : list Z :=
  match tr with
  | [] => []
  | EvSocket _ _ _ r :: tr' =>
      if r =? -1 then sockets_created tr' else r :: sockets_created tr'
  | _ :: tr' => sockets_created tr'
  end.

(** The descriptor table after a trace: socket() opens, close() releases. *)
Definition fd_step (open : list Z) (e : event) : list Z :=
  match e with
  | EvSocket _ _ _ r => if r =? -1 then open else r :: open
  | EvClose fd => filter (fun x => negb (x =? fd)) open
  | _ => open
  end.

Definition open_fds (tr : list event) : list Z := fold_left fd_step tr [].

Definition is_close (e : event) : bool :=
  match e with EvClose _ => true | _ => false end.

Definition is_socket (e : event) : bool :=
  match e with EvSocket _ _ _ _ => true | _ => false end.

Definition is_store (e : event) : bool :=
  match e with EvStoreConn _ => true | _ => false end.

Definition is_connect (e : event) : bool :=
  match e with EvConnect _ _ _ _ => true | _ => false end.

Definition is_getaddrinfo (e : event) : bool :=
  match e with EvGetaddrinfo _ _ _ _ _ => true | _ => false end.

(** A connect() that returned 0. *)
Definition is_connected (e : event) : bool :=
  match e with EvConnect _ _ _ r => r =? 0 | _ => false end.

(** The descriptor a connect() was issued on. *)
Definition connect_fd (e : event) : option Z :=
  match e with EvConnect fd _ _ _ => Some fd | _ => None end.

(** ** Candidates *)

(** The answer of the peer behind candidate [ai] to a connect() on [fd]. *)
Definition connect_rv (W : World) (fd : Z) (ai : addrinfo) : Z :=
  rv (connect_r W fd (ai_addr ai) (ai_addrlen ai)).

Definition accepts (W : World) (fd : Z) (ai : addrinfo) : Prop :=
  connect_rv W fd ai = 0.

Definition rejects (W : World) (fd : Z) (ai : addrinfo) : Prop :=
  connect_rv W fd ai <> 0.

(** The event of one connect attempt on candidate [ai]. *)
Definition attempt (W : World) (fd : Z) (ai : addrinfo) : event :=
  EvConnect fd (ai_addr ai) (ai_addrlen ai) (connect_rv W fd ai).

(** The events every run shares once the socket exists and resolution has
    been asked. *)
Definition prologue {P : Platform} (W : World) (host port : string)
  (pe : protoent) (fd : Z) : list event :=
  let r := getaddrinfo_r W host port (tcphints pe) in
  [ EvGetprotobyname "tcp" (Some pe);
    EvSocket AF_INET SOCK_STREAM (p_proto pe) fd;
    EvStoreConn fd;
    EvGetaddrinfo host port (tcphints pe) (fst r) (snd r) ].

(** ** Concrete worlds

    A Linux host whose protocol database has the tcp entry, whose next free
    descriptor is 3, and which resolves "localhost" to the IPv6 and the IPv4
    loopback address, in that order.  Only the IPv4 address can be reached
    (on the AF_INET socket the IPv6 one fails with EAFNOSUPPORT = 97). *)

Definition tcp_entry : protoent :=
  {| p_name := "tcp"; p_aliases := ["TCP"%string]; p_proto := 6 |}.

Definition loopback6 : addrinfo :=
  {| ai_flags := 0; ai_family := 10; ai_socktype := 1; ai_protocol := 6;
     ai_addrlen := 28;
     ai_addr := Some {| sa_family := 10;
                        sa_data := [35; 130; 0; 0; 0; 0; 0; 0; 0; 0; 0; 0; 0;
                                    0; 0; 0; 0; 0; 0; 0; 0; 1; 0; 0; 0; 0] |};
     ai_canonname := None |}.

Definition loopback4 : addrinfo :=
  {| ai_flags := 0; ai_family := 2; ai_socktype := 1; ai_protocol := 6;
     ai_addrlen := 16;
     ai_addr := Some {| sa_family := 2;
                        sa_data := [35; 130; 127; 0; 0; 1; 0; 0; 0; 0; 0; 0;
                                    0; 0] |};
     ai_canonname := None |}.

Definition family_of (addr : option sockaddr) : Z :=
  match addr with Some a => sa_family a | None => 0 end.

Definition host_up : World := {|
  getprotobyname_r := fun name =>
    if String.eqb name "tcp" then Some tcp_entry else None;
  socket_r := fun _ _ _ => {| rv := 3; sets_errno := None |};
  getaddrinfo_r := fun node _ _ =>
    if String.eqb node "localhost" then (0, [loopback6; loopback4])
    else (-2, []);
  connect_r := fun _ addr _ =>
    if family_of addr =? 2 then {| rv := 0; sets_errno := None |}
    else {| rv := -1; sets_errno := Some 97 |}
|}.

(** The same host with nothing listening: every connect() is refused
    (ECONNREFUSED = 111). *)
Definition host_refusing : World := {|
  getprotobyname_r := getprotobyname_r host_up;
  socket_r := socket_r host_up;
  getaddrinfo_r := getaddrinfo_r host_up;
  connect_r := fun _ _ _ => {| rv := -1; sets_errno := Some 111 |}
|}.

(** The same host with an empty protocol database. *)
Definition host_without_protocols : World := {|
  getprotobyname_r := fun _ => None;
  socket_r := socket_r host_up;
  getaddrinfo_r := getaddrinfo_r host_up;
  connect_r := connect_r host_up
|}.

(** The same host refusing to create sockets (EACCES = 13). *)
Definition host_without_sockets : World := {|
  getprotobyname_r := getprotobyname_r host_up;
  socket_r := fun _ _ _ => {| rv := -1; sets_errno := Some 13 |};
  getaddrinfo_r := getaddrinfo_r host_up;
  connect_r := connect_r host_up
|}.

(** The caller's memory before the call: [errno] clear, [*conn] holding 42,
    nothing observed yet. *)
Definition fresh : state := {| errno := 0; conn := 42; trace := [] |}.

(** ** The five ways through [tcpdial] *)

Section Paths.

Context {P : Platform}.
Variable W : World.

(** The value the [switch] leaves in [errno] when entered with [errno = rc]. *)
Definition normalized (rc : Z) : Z :=
  errno (snd (translate_resolver_error
                {| errno := rc; conn := 0; trace := [] |})).

(** [dial_path host port s r s']: one of the five exits of [tcpdial], with
    the facts about the world that lead to it, the value [r] returned there
    and the state [s'] left there. *)
Inductive dial_path (host port : string) (s : state) : Z -> state -> Prop :=
| path_no_protocol :
    getprotobyname_r W "tcp" = None ->
    dial_path host port s ENOPROTOOPT
      {| errno := ENOPROTOOPT; conn := conn s;
         trace := trace s ++ [EvGetprotobyname "tcp" None] |}
| path_no_socket (pe : protoent) :
    getprotobyname_r W "tcp" = Some pe ->
    rv (socket_r W AF_INET SOCK_STREAM (p_proto pe)) = -1 ->
    let e := errno (leave_errno
                      (socket_r W AF_INET SOCK_STREAM (p_proto pe)) s) in
    dial_path host port s e
      {| errno := e; conn := -1;
         trace := trace s ++
                  [EvGetprotobyname "tcp" (Some pe);
                   EvSocket AF_INET SOCK_STREAM (p_proto pe) (-1);
                   EvStoreConn (-1)] |}
| path_no_address (pe : protoent) (fd rc : Z) :
    getprotobyname_r W "tcp" = Some pe ->
    rv (socket_r W AF_INET SOCK_STREAM (p_proto pe)) = fd ->
    fd <> -1 ->
    fst (getaddrinfo_r W host port (tcphints pe)) = rc ->
    rc <> 0 ->
    dial_path host port s (normalized rc)
      {| errno := normalized rc; conn := fd;
         trace := trace s ++ prologue W host port pe fd |}
| path_not_connected (pe : protoent) (fd : Z) (cands : list addrinfo) :
    getprotobyname_r W "tcp" = Some pe ->
    rv (socket_r W AF_INET SOCK_STREAM (p_proto pe)) = fd ->
    fd <> -1 ->
    getaddrinfo_r W host port (tcphints pe) = (0, cands) ->
    Forall (rejects W fd) cands ->
    dial_path host port s ENOTCONN
      {| errno := ENOTCONN; conn := fd;
         trace := trace s ++ prologue W host port pe fd
                          ++ map (attempt W fd) cands |}
| path_connected (pe : protoent) (fd : Z) (pre : list addrinfo)
                 (a : addrinfo) (post : list addrinfo) (e : Z) :
    getprotobyname_r W "tcp" = Some pe ->
    rv (socket_r W AF_INET SOCK_STREAM (p_proto pe)) = fd ->
    fd <> -1 ->
    getaddrinfo_r W host port (tcphints pe) = (0, pre ++ a :: post) ->
    Forall (rejects W fd) pre ->
    accepts W fd a ->
    dial_path host port s 0
      {| errno := e; conn := fd;
         trace := trace s ++ prologue W host port pe fd
                          ++ map (attempt W fd) (pre ++ [a]) |}.

End Paths.

(** ** Predicates on one call *)

(** The events the call appends to the trace it starts from. *)
Definition emitted {P : Platform} (W : World) (host port : string)
  (s : state) : list event :=
  skipn (List.length (trace s)) (trace (final W host port s)).

(** Some connect() of the call returned 0. *)
Definition connection_established {P : Platform} (W : World)
  (host port : string) (s : state) : Prop :=
  exists fd addr len, In (EvConnect fd addr len 0) (emitted W host port s).

(** When the call fails, no descriptor it created is still open at the
    return. *)
Definition closes_socket_on_failure {P : Platform} (W : World)
  (host port : string) (s : state) : Prop :=
  returned W host port s <> 0 ->
  forall fd, In fd (sockets_created (emitted W host port s)) ->
             ~ In fd (open_fds (trace (final W host port s))).

(** The call creates exactly one socket. *)
Definition creates_one_socket {P : Platform} (W : World)
  (host port : string) (s : state) : Prop :=
  exists fd, sockets_created (emitted W host port s) = [fd].

(** What a sequence of connect attempts on [fd] leaves in [errno], starting
    from [e0]: the value written by the latest attempt that wrote one. *)
Definition errno_after (W : World) (fd : Z) (tried : list addrinfo) (e0 : Z)
  : Z :=
  fold_left
    (fun e ai =>
       match sets_errno (connect_r W fd (ai_addr ai) (ai_addrlen ai)) with
       | Some e' => e'
       | None => e
       end)
    tried e0.

(** * Properties *)

Section Facts.

Context {P : Platform}.
Variable W : World.

Lemma leave_errno_conn (r : sysret) (s : state) :
  conn (leave_errno r s) = conn s.
Proof. unfold leave_errno; destruct (sets_errno r); reflexivity. Qed.

Lemma leave_errno_trace (r : sysret) (s : state) :
  trace (leave_errno r s) = trace s.
Proof. unfold leave_errno; destruct (sets_errno r); reflexivity. Qed.

(** The loop on a chain of candidates that all reject: it runs off the end
    of the chain, having tried each candidate once, in order, on the
    descriptor in [*conn]. *)
Lemma connect_loop_rejected (cands : list addrinfo) :
  forall s, Forall (rejects W (conn s)) cands ->
  exists e, connect_loop W cands s =
            ([], {| errno := e; conn := conn s;
                    trace := trace s ++ map (attempt W (conn s)) cands |}).
Proof.
  induction cands as [|ai rest IH]; intros s Hrej.
  - exists (errno s). destruct s; cbn. now rewrite app_nil_r.
  - inversion Hrej as [|? ? Hai Hrest]; subst.
    cbn [connect_loop]. unfold bind at 1, load_conn.
    unfold bind at 1, connect.
    fold (connect_rv W (conn s) ai).
    apply Z.eqb_neq in Hai as Hb. rewrite Hb. cbn [negb].
    set (s1 := log _ _).
    assert (Hc : conn s1 = conn s) by (subst s1; cbn; apply leave_errno_conn).
    assert (Ht : trace s1 = trace s ++ [attempt W (conn s) ai])
      by (subst s1; cbn; now rewrite leave_errno_trace).
    destruct (IH s1) as [e He]; [now rewrite Hc|].
    exists e. rewrite He, Hc, Ht, <- app_assoc. reflexivity.
Qed.

(** The loop on a chain whose first accepting candidate is [a]: it stops at
    [a], having tried the candidates before [a] and then [a] itself. *)
Lemma connect_loop_accepted (pre : list addrinfo) (a : addrinfo)
  (post : list addrinfo) :
  forall s, Forall (rejects W (conn s)) pre -> accepts W (conn s) a ->
  exists e, connect_loop W (pre ++ a :: post) s =
            (a :: post,
             {| errno := e; conn := conn s;
                trace := trace s ++ map (attempt W (conn s)) (pre ++ [a]) |}).
Proof.
  induction pre as [|ai rest IH]; intros s Hrej Hacc.
  - cbn [app connect_loop]. unfold bind at 1, load_conn.
    unfold bind at 1, connect.
    fold (connect_rv W (conn s) a).
    unfold accepts in Hacc. rewrite Hacc. cbn [Z.eqb negb].
    eexists. unfold ret, log. cbn [errno conn trace map].
    rewrite leave_errno_conn, leave_errno_trace.
    unfold attempt. rewrite Hacc. reflexivity.
  - inversion Hrej as [|? ? Hai Hrest]; subst.
    cbn [app connect_loop]. unfold bind at 1, load_conn.
    unfold bind at 1, connect.
    fold (connect_rv W (conn s) ai).
    apply Z.eqb_neq in Hai as Hb. rewrite Hb. cbn [negb].
    set (s1 := log _ _).
    assert (Hc : conn s1 = conn s) by (subst s1; cbn; apply leave_errno_conn).
    assert (Ht : trace s1 = trace s ++ [attempt W (conn s) ai])
      by (subst s1; cbn; now rewrite leave_errno_trace).
    destruct (IH s1) as [e He]; [now rewrite Hc | now rewrite Hc |].
    exists e. rewrite He, Hc, Ht, <- app_assoc. reflexivity.
Qed.

(** Either every candidate rejects, or there is a first one that accepts. *)
Lemma first_accepting (fd : Z) (cands : list addrinfo) :
  Forall (rejects W fd) cands \/
  exists pre a post, cands = pre ++ a :: post /\
                     Forall (rejects W fd) pre /\ accepts W fd a.
Proof.
  induction cands as [|ai rest IH].
  - left; constructor.
  - destruct (Z.eq_dec (connect_rv W fd ai) 0) as [Hz|Hnz].
    + right. exists [], ai, rest. repeat split; [constructor | exact Hz].
    + destruct IH as [Hall | (pre & a & post & -> & Hpre & Ha)].
      * left. constructor; assumption.
      * right. exists (ai :: pre), a, post.
        repeat split; [constructor; assumption | exact Ha].
Qed.

(** The [switch] only touches [errno]. *)
Lemma translate_resolver_error_run (s : state) :
  translate_resolver_error s =
  (tt, {| errno := normalized (errno s); conn := conn s; trace := trace s |}).
Proof.
  unfold normalized, translate_resolver_error, bind, load_errno.
  cbn [errno snd].
  destruct (errno s =? EAI_AGAIN); [reflexivity|].
  destruct (errno s =? EAI_FAIL); [reflexivity|].
  destruct (errno s =? EAI_MEMORY); [reflexivity|].
  destruct ((errno s =? EAI_NONAME) || (errno s =? EAI_SERVICE));
    [reflexivity|].
  destruct s; reflexivity.
Qed.

Lemma leave_errno_errno (r : sysret) (s : state) (c : Z) (t : list event) :
  errno (leave_errno r {| errno := errno s; conn := c; trace := t |}) =
  errno (leave_errno r s).
Proof. unfold leave_errno; destruct (sets_errno r); reflexivity. Qed.

(** Every call leaves [tcpdial] by one of the five exits. *)
Lemma tcpdial_path (host port : string) (s : state) :
  dial_path W host port s (returned W host port s) (final W host port s).
Proof.
  unfold returned, final.
  destruct (tcpdial W host port s) as [r s'] eqn:E. cbn [fst snd].
  unfold tcpdial in E.
  unfold bind at 1, getprotobyname in E.
  destruct (getprotobyname_r W "tcp") as [pe|] eqn:Hp.
  - unfold bind at 1, socket in E.
    unfold bind at 1, store_conn in E.
    unfold bind at 1, load_conn in E. cbn [conn] in E.
    set (sr := socket_r W AF_INET SOCK_STREAM (p_proto pe)) in *.
    destruct (rv sr =? -1) eqn:Hfd.
    + apply Z.eqb_eq in Hfd.
      unfold load_errno, log in E. cbn [errno conn trace fst snd] in E.
      rewrite leave_errno_trace, leave_errno_errno, Hfd in E.
      cbn [trace] in E. rewrite <- !app_assoc in E. cbn [app] in E.
      injection E as <- <-.
      exact (path_no_socket W host port s pe Hp Hfd).
    + apply Z.eqb_neq in Hfd.
      unfold bind at 1, getaddrinfo in E.
      unfold bind at 1, store_errno in E.
      unfold bind at 1, load_errno in E.
      unfold log in E. cbn [errno conn trace fst snd] in E.
      rewrite leave_errno_trace in E.
      cbn [trace] in E. rewrite <- !app_assoc in E. cbn [app] in E.
      destruct (getaddrinfo_r W host port (tcphints pe)) as [rc res] eqn:Hg.
      cbn [fst snd] in E.
      destruct (rc =? 0) eqn:Hrc; cbn [negb] in E.
      * apply Z.eqb_eq in Hrc. subst rc.
        unfold bind at 1 in E.
        set (s2 := {| errno := 0; conn := rv sr; trace := _ |}) in E.
        destruct (first_accepting (rv sr) res)
          as [Hall | (pre & a & post & -> & Hpre & Ha)].
        -- destruct (connect_loop_rejected res s2 Hall) as [e He].
           rewrite He in E. unfold bind, store_errno, load_errno in E.
           cbn [errno conn trace] in E. injection E as <- <-.
           subst s2. cbn [trace].
           pose proof (path_not_connected W host port s pe (rv sr) res
                         Hp eq_refl Hfd Hg Hall) as Hpath.
           unfold prologue in Hpath. rewrite Hg in Hpath.
           cbn [fst snd] in Hpath. rewrite <- app_assoc. exact Hpath.
        -- destruct (connect_loop_accepted pre a post s2 Hpre Ha) as [e He].
           rewrite He in E. unfold ret in E. injection E as <- <-.
           subst s2. cbn [trace conn].
           pose proof (path_connected W host port s pe (rv sr) pre a post e
                         Hp eq_refl Hfd Hg Hpre Ha) as Hpath.
           unfold prologue in Hpath. rewrite Hg in Hpath.
           cbn [fst snd] in Hpath. rewrite <- app_assoc. exact Hpath.
      * apply Z.eqb_neq in Hrc.
        unfold bind at 1 in E. rewrite translate_resolver_error_run in E.
        unfold load_errno in E. cbn [errno conn trace] in E.
        injection E as <- <-.
        pose proof (path_no_address W host port s pe (rv sr) rc
                      Hp eq_refl Hfd) as Hpath.
        unfold prologue in Hpath. rewrite Hg in Hpath.
        cbn [fst snd] in Hpath. exact (Hpath eq_refl Hrc).
  - unfold bind, store_errno, load_errno, log in E.
    cbn [errno conn trace] in E. injection E as <- <-.
    exact (path_no_protocol W host port s Hp).
Qed.

Lemma skipn_length_app {A : Type} (l l' : list A) :
  skipn (List.length l) (l ++ l') = l'.
Proof. induction l as [|x l IH]; [reflexivity | exact IH]. Qed.

(** The value the [switch] leaves is one of four error numbers or the
    value it found. *)
Lemma normalized_cases (rc : Z) :
  normalized rc = ENETUNREACH \/ normalized rc = ENETDOWN \/
  normalized rc = ENOMEM \/ normalized rc = EINVAL \/
  normalized rc = rc.
Proof.
  unfold normalized, translate_resolver_error, bind, load_errno.
  cbn [errno snd].
  destruct (rc =? EAI_AGAIN); [now left|].
  destruct (rc =? EAI_FAIL); [now right; left|].
  destruct (rc =? EAI_MEMORY); [now right; right; left|].
  destruct ((rc =? EAI_NONAME) || (rc =? EAI_SERVICE));
    [now right; right; right; left|].
  now right; right; right; right.
Qed.

(** The [switch], label by label. *)
Lemma normalized_labels (rc : Z) :
  labels_distinct P ->
  (rc = EAI_AGAIN -> normalized rc = ENETUNREACH) /\
  (rc = EAI_FAIL -> normalized rc = ENETDOWN) /\
  (rc = EAI_MEMORY -> normalized rc = ENOMEM) /\
  (rc = EAI_NONAME \/ rc = EAI_SERVICE -> normalized rc = EINVAL) /\
  (~ In rc [EAI_AGAIN; EAI_FAIL; EAI_MEMORY; EAI_NONAME; EAI_SERVICE] ->
   normalized rc = rc).
Proof.
  intros Hd. unfold labels_distinct in Hd.
  repeat match goal with
         | H : NoDup (_ :: _) |- _ =>
             let Hn := fresh "Hn" in
             apply NoDup_cons_iff in H; destruct H as [Hn H]; cbn [In] in Hn
         end.
  unfold normalized, translate_resolver_error, bind, load_errno.
  cbn [errno snd In].
  destruct (Z.eqb_spec rc EAI_AGAIN), (Z.eqb_spec rc EAI_FAIL),
    (Z.eqb_spec rc EAI_MEMORY), (Z.eqb_spec rc EAI_NONAME),
    (Z.eqb_spec rc EAI_SERVICE);
    cbn; intuition congruence.
Qed.

(** A descriptor that is open stays open as long as nothing closes it. *)
Lemma open_fds_kept (tr : list event) :
  forall open fd, In fd open -> forallb (fun e => negb (is_close e)) tr = true ->
  In fd (fold_left fd_step tr open).
Proof.
  induction tr as [|e tr IH]; intros open fd Hin Hno; [exact Hin|].
  cbn [forallb] in Hno. apply andb_prop in Hno as [He Htr].
  cbn [fold_left]. apply IH; [|exact Htr].
  destruct e; cbn [fd_step]; try exact Hin; [|discriminate He].
  destruct (r =? -1); [exact Hin | now right].
Qed.

(** A socket created in the course of a trace and not closed after that is
    in the descriptor table at the end. *)
Lemma open_fds_after_socket (before after : list event) (d t p fd : Z) :
  fd <> -1 -> forallb (fun e => negb (is_close e)) after = true ->
  In fd (open_fds (before ++ EvSocket d t p fd :: after)).
Proof.
  intros Hfd Hno. unfold open_fds. rewrite fold_left_app. cbn [fold_left].
  apply open_fds_kept; [|exact Hno].
  cbn [fd_step]. apply Z.eqb_neq in Hfd. rewrite Hfd. now left.
Qed.

Lemma attempts_not_close (fd : Z) (cands : list addrinfo) :
  forallb (fun e => negb (is_close e)) (map (attempt W fd) cands) = true.
Proof. induction cands as [|ai l IH]; [reflexivity | exact IH]. Qed.

Lemma sockets_created_attempts (fd : Z) (cands : list addrinfo) :
  sockets_created (map (attempt W fd) cands) = [].
Proof. induction cands as [|ai l IH]; [reflexivity | exact IH]. Qed.

Lemma filter_connect_attempts (fd : Z) (cands : list addrinfo) :
  filter is_connect (map (attempt W fd) cands) = map (attempt W fd) cands.
Proof.
  induction cands as [|ai l IH]; [reflexivity|].
  cbn [map filter attempt is_connect]. now rewrite IH.
Qed.

Lemma in_attempts (fd : Z) (cands : list addrinfo) (e : event) :
  In e (map (attempt W fd) cands) ->
  exists ai, In ai cands /\ e = attempt W fd ai.
Proof.
  intros Hin. apply in_map_iff in Hin as (ai & <- & Hai). now exists ai.
Qed.

(** No accepting candidate sits in a chain whose candidates all reject. *)
Lemma rejected_not_accepted (fd : Z) (pre post : list addrinfo)
  (a : addrinfo) :
  Forall (rejects W fd) (pre ++ a :: post) -> accepts W fd a -> False.
Proof.
  intros Hall Ha. rewrite Forall_forall in Hall.
  apply (Hall a); [apply in_elt | exact Ha].
Qed.

(** The first accepting candidate of a chain is determined by the chain. *)
Lemma first_accepting_unique (fd : Z) (pre : list addrinfo) :
  forall (a : addrinfo) (post pre' : list addrinfo) (a' : addrinfo)
         (post' : list addrinfo),
  pre ++ a :: post = pre' ++ a' :: post' ->
  Forall (rejects W fd) pre -> accepts W fd a ->
  Forall (rejects W fd) pre' -> accepts W fd a' ->
  pre = pre' /\ a = a' /\ post = post'.
Proof.
  induction pre as [|x pre IH]; intros a post pre' a' post' E Hp Ha Hp' Ha'.
  - destruct pre' as [|y pre'].
    + injection E as -> ->. now repeat split.
    + injection E as <- _. inversion Hp'; subst. contradiction.
  - destruct pre' as [|y pre'].
    + injection E as -> _. inversion Hp; subst. contradiction.
    + injection E as <- E. inversion Hp; inversion Hp'; subst.
      destruct (IH a post pre' a' post' E) as (-> & -> & ->); auto.
Qed.

(** The created socket is in the descriptor table after the prologue and
    whatever follows it without closing. *)
Lemma open_fds_prologue (tr rest : list event) (host port : string)
  (pe : protoent) (fd : Z) :
  fd <> -1 -> forallb (fun e => negb (is_close e)) rest = true ->
  In fd (open_fds (tr ++ prologue W host port pe fd ++ rest)).
Proof.
  intros Hfd Hrest. unfold prologue. cbn [app].
  change (tr ++ ?e1 :: ?e2 :: ?l) with (tr ++ [e1] ++ e2 :: l).
  rewrite app_assoc. apply open_fds_after_socket; [exact Hfd|].
  cbn [forallb is_close negb andb]. exact Hrest.
Qed.

Lemma firstn_through (pre : list addrinfo) (a : addrinfo)
  (post : list addrinfo) :
  firstn (S (List.length pre)) (pre ++ a :: post) = pre ++ [a].
Proof.
  induction pre as [|x pre IH]; [reflexivity|].
  cbn [List.length app]. rewrite firstn_cons. now rewrite IH.
Qed.

Lemma filter_socket_attempts (fd : Z) (cands : list addrinfo) :
  filter is_socket (map (attempt W fd) cands) = [].
Proof. induction cands as [|ai l IH]; [reflexivity | exact IH]. Qed.

Lemma filter_store_attempts (fd : Z) (cands : list addrinfo) :
  filter is_store (map (attempt W fd) cands) = [].
Proof. induction cands as [|ai l IH]; [reflexivity | exact IH]. Qed.

Lemma attempts_are_connects (fd : Z) (cands : list addrinfo) :
  forallb (fun e => is_getaddrinfo e || is_connect e)
          (map (attempt W fd) cands) = true.
Proof. induction cands as [|ai l IH]; [reflexivity | exact IH]. Qed.

(** The events of the prologue are not connect attempts. *)
Lemma in_prologue_not_connect (host port : string) (pe : protoent)
  (fd fd0 : Z) (addr : option sockaddr) (len r : Z) :
  ~ In (EvConnect fd0 addr len r) (prologue W host port pe fd).
Proof.
  intros [Hin | [Hin | [Hin | [Hin | []]]]]; discriminate Hin.
Qed.

Lemma filter_getaddrinfo_attempts (fd : Z) (cands : list addrinfo) :
  filter is_getaddrinfo (map (attempt W fd) cands) = [].
Proof. induction cands as [|ai l IH]; [reflexivity | exact IH]. Qed.

(** The only getaddrinfo() event after the prologue is the one in it. *)
Lemma in_prologue_getaddrinfo (host port : string) (pe : protoent) (fd : Z)
  (cands : list addrinfo) (node service : string) (hints : addrinfo)
  (rc : Z) (res : list addrinfo) :
  In (EvGetaddrinfo node service hints rc res)
     (prologue W host port pe fd ++ map (attempt W fd) cands) ->
  node = host /\ service = port /\ hints = tcphints pe /\
  getaddrinfo_r W host port (tcphints pe) = (rc, res).
Proof.
  intros Hin. apply in_app_or in Hin as [Hin | Hin].
  - destruct Hin as [Hin | [Hin | [Hin | [Hin | []]]]]; try discriminate Hin.
    injection Hin as <- <- <- <- <-.
    repeat split. now destruct (getaddrinfo_r W host port (tcphints pe)).
  - apply in_attempts in Hin as (ai & _ & Hin). discriminate Hin.
Qed.

End Facts.

(** Case analysis on the exit taken by the call [tcpdial W host port s];
    in each case the returned value, the final state and the emitted events
    are replaced by what that exit makes them. *)
Ltac by_path W host port s :=
  unfold connection_established, closes_socket_on_failure,
    creates_one_socket, emitted in *;
  generalize (tcpdial_path W host port s);
  generalize (returned W host port s) (final W host port s);
  let r := fresh "r" in
  let s' := fresh "s'" in
  let Hpath := fresh "Hpath" in
  intros r s' Hpath;
  destruct Hpath as
    [ Eproto
    | pe' Eproto Esock e'
    | pe' fd' rc' Eproto Esock Efd Eres Erc
    | pe' fd' cands' Eproto Esock Efd Eres Erej
    | pe' fd' pre a post e' Eproto Esock Efd Eres Erej Eacc ];
  cbn [errno conn trace]; rewrite ?skipn_length_app.

(** Facts about the world that two exits of one call state twice are
    identified; exits that contradict the facts at hand are dismissed. *)
Ltac same_world :=
  repeat match goal with
  | H1 : getprotobyname_r ?W ?n = None,
    H2 : getprotobyname_r ?W ?n = Some _ |- _ =>
      rewrite H1 in H2; discriminate H2
  | H1 : getprotobyname_r ?W ?n = Some ?a,
    H2 : getprotobyname_r ?W ?n = Some ?b |- _ =>
      assert (a = b) by congruence; subst a; clear H1
  | H1 : getaddrinfo_r ?W ?h ?p ?t = (_, ?a),
    H2 : getaddrinfo_r ?W ?h ?p ?t = (_, ?b) |- _ =>
      assert (a = b) by congruence; subst a; clear H1
  | H1 : getaddrinfo_r ?W ?h ?p ?t = (0, _),
    H2 : fst (getaddrinfo_r ?W ?h ?p ?t) = ?rc |- _ =>
      rewrite H1 in H2; cbn [fst] in H2; subst rc
  | H : rv (socket_r ?W ?d ?t ?p) = ?fd |- _ =>
      is_var fd; subst fd
  end.

Section DialProperties.

Context {P : Platform}.
Variable W : World.

(** C1.  When the protocol lookup, the socket creation and the resolution
    succeed and some candidate of the resolved chain accepts (so the chain
    is not empty), the chain splits at its first accepting candidate [a]:
    the call makes one connect attempt on the created socket for each
    candidate before [a], in resolution order, none of which stops it,
    then one for [a], and no further one; it returns 0 with [*conn] holding
    the socket. *)
Theorem tcpdial_connects_to_first_accepting
  (host port : string) (s : state) (pe : protoent) (fd : Z)
  (cands : list addrinfo) :
  getprotobyname_r W "tcp" = Some pe ->
  rv (socket_r W AF_INET SOCK_STREAM (p_proto pe)) = fd ->
  fd <> -1 ->
  getaddrinfo_r W host port (tcphints pe) = (0, cands) ->
  Exists (accepts W fd) cands ->
  exists pre a post,
    cands = pre ++ a :: post /\
    Forall (rejects W fd) pre /\
    accepts W fd a /\
    emitted W host port s =
      prologue W host port pe fd ++ map (attempt W fd) (pre ++ [a]) /\
    conn (final W host port s) = fd /\
    returned W host port s = 0.
Proof.
  intros Hproto Hsock Hfd Hres Hacc.
  by_path W host port s; same_world; try congruence.
  - exfalso. apply Exists_exists in Hacc as (x & Hin & Hx).
    rewrite Forall_forall in Erej. exact (Erej x Hin Hx).
  - exists pre, a, post. repeat split; assumption || reflexivity.
Qed.

(** C2.  When the protocol lookup, the socket creation and the resolution
    succeed and every candidate of the resolved chain rejects (the empty
    chain included), the call tries every candidate once, in order, then
    stores ENOTCONN in [errno] and returns it. *)
Theorem tcpdial_not_connected
  (host port : string) (s : state) (pe : protoent) (fd : Z)
  (cands : list addrinfo) :
  getprotobyname_r W "tcp" = Some pe ->
  rv (socket_r W AF_INET SOCK_STREAM (p_proto pe)) = fd ->
  fd <> -1 ->
  getaddrinfo_r W host port (tcphints pe) = (0, cands) ->
  Forall (rejects W fd) cands ->
  returned W host port s = ENOTCONN /\
  errno (final W host port s) = ENOTCONN /\
  emitted W host port s =
    prologue W host port pe fd ++ map (attempt W fd) cands.
Proof.
  intros Hproto Hsock Hfd Hres Hrej.
  by_path W host port s; same_world; try congruence.
  - now repeat split.
  - exfalso. eapply rejected_not_accepted; eassumption.
Qed.

(** C3.  When the protocol lookup and the socket creation succeed and the
    resolver returns a code [rc] other than 0, the value returned is the
    value left in [errno], and it is the image of [rc] under one pass of
    the table: EAI_AGAIN gives ENETUNREACH, EAI_FAIL gives ENETDOWN,
    EAI_MEMORY gives ENOMEM, EAI_NONAME and EAI_SERVICE give EINVAL, and
    any other code gives itself.  The image is not looked up again: it is
    what the table says even if it equals one of the labels. *)
Theorem tcpdial_resolver_failure
  (host port : string) (s : state) (pe : protoent) (fd rc : Z) :
  labels_distinct P ->
  getprotobyname_r W "tcp" = Some pe ->
  rv (socket_r W AF_INET SOCK_STREAM (p_proto pe)) = fd ->
  fd <> -1 ->
  fst (getaddrinfo_r W host port (tcphints pe)) = rc ->
  rc <> 0 ->
  errno (final W host port s) = returned W host port s /\
  (rc = EAI_AGAIN -> returned W host port s = ENETUNREACH) /\
  (rc = EAI_FAIL -> returned W host port s = ENETDOWN) /\
  (rc = EAI_MEMORY -> returned W host port s = ENOMEM) /\
  (rc = EAI_NONAME \/ rc = EAI_SERVICE -> returned W host port s = EINVAL) /\
  (~ In rc [EAI_AGAIN; EAI_FAIL; EAI_MEMORY; EAI_NONAME; EAI_SERVICE] ->
   returned W host port s = rc).
Proof.
  intros Hlab Hproto Hsock Hfd Hres Hrc.
  by_path W host port s; same_world; try congruence.
  subst rc rc'.
  split; [reflexivity | apply normalized_labels; exact Hlab].
Qed.

(** C6.  When the protocol database has no tcp entry, the call stores
    ENOPROTOOPT in [errno] and returns it, and the protocol lookup is the
    only thing it has done: no socket() call, no getaddrinfo() call, and
    [*conn] as it was. *)
Theorem tcpdial_protocol_unavailable (host port : string) (s : state) :
  getprotobyname_r W "tcp" = None ->
  returned W host port s = ENOPROTOOPT /\
  errno (final W host port s) = ENOPROTOOPT /\
  emitted W host port s = [EvGetprotobyname "tcp" None] /\
  sockets_created (emitted W host port s) = [] /\
  filter is_socket (emitted W host port s) = [] /\
  filter is_getaddrinfo (emitted W host port s) = [] /\
  conn (final W host port s) = conn s.
Proof.
  intros Hproto.
  by_path W host port s; same_world.
  now repeat split.
Qed.

(** C4, as the code has it.  When the socket has been created and the call
    fails (the resolver failed, or every candidate rejected), the call has
    closed nothing: the socket is still in the descriptor table when the
    error is returned, and [*conn] holds its descriptor. *)
Theorem tcpdial_failure_leaves_socket_open
  (host port : string) (s : state) (pe : protoent) (fd : Z) :
  getprotobyname_r W "tcp" = Some pe ->
  rv (socket_r W AF_INET SOCK_STREAM (p_proto pe)) = fd ->
  fd <> -1 ->
  returned W host port s <> 0 ->
  sockets_created (emitted W host port s) = [fd] /\
  forallb (fun e => negb (is_close e)) (emitted W host port s) = true /\
  In fd (open_fds (trace (final W host port s))) /\
  conn (final W host port s) = fd.
Proof.
  intros Hproto Hsock Hfd.
  by_path W host port s; same_world; intros Hret; try congruence.
  - apply Z.eqb_neq in Hfd as Hb.
    repeat split.
    + cbn. now rewrite Hb.
    + rewrite <- (app_nil_r (prologue _ _ _ _ _)).
      apply open_fds_prologue; [exact Hfd | reflexivity].
  - apply Z.eqb_neq in Hfd as Hb.
    repeat split.
    + cbn [prologue app sockets_created]. rewrite Hb.
      now rewrite sockets_created_attempts.
    + cbn [prologue app forallb is_close negb andb].
      apply attempts_not_close.
    + apply open_fds_prologue; [exact Hfd | apply attempts_not_close].
Qed.

(** C5.  On a POSIX platform the call returns 0 exactly when one of its
    connect() calls returned 0.  Each way of failing (no protocol entry, no
    socket, resolver failure, every candidate rejecting) makes it return a
    value other than 0, and a call that returns a value other than 0 has
    made no connect() that returned 0. *)
Theorem tcpdial_zero_iff_connected (host port : string) (s : state) :
  errors_positive P ->
  posix_world W ->
  (returned W host port s = 0 <-> connection_established W host port s) /\
  (returned W host port s <> 0 ->
   forallb (fun e => negb (is_connected e)) (emitted W host port s) = true) /\
  (getprotobyname_r W "tcp" = None -> returned W host port s <> 0) /\
  (forall pe, getprotobyname_r W "tcp" = Some pe ->
     rv (socket_r W AF_INET SOCK_STREAM (p_proto pe)) = -1 ->
     returned W host port s <> 0) /\
  (forall pe, getprotobyname_r W "tcp" = Some pe ->
     rv (socket_r W AF_INET SOCK_STREAM (p_proto pe)) <> -1 ->
     fst (getaddrinfo_r W host port (tcphints pe)) <> 0 ->
     returned W host port s <> 0) /\
  (forall pe cands, getprotobyname_r W "tcp" = Some pe ->
     rv (socket_r W AF_INET SOCK_STREAM (p_proto pe)) <> -1 ->
     getaddrinfo_r W host port (tcphints pe) = (0, cands) ->
     Forall (rejects W (rv (socket_r W AF_INET SOCK_STREAM (p_proto pe))))
       cands ->
     returned W host port s <> 0).
Proof.
  intros (Hproto & Hunreach & Hdown & Hmem & Hinval & Hnotconn) Hposix.
  assert (Hnorm : forall rc, rc <> 0 -> normalized rc <> 0).
  { intros rc Hrc.
    destruct (normalized_cases rc) as [E | [E | [E | [E | E]]]];
      rewrite E; lia. }
  by_path W host port s.
  - (* no protocol entry *)
    assert (Hnz : ENOPROTOOPT <> 0) by lia.
    repeat split; intros; try assumption; try contradiction.
    destruct H as (? & ? & ? & [Hin | []]). discriminate Hin.
  - (* no socket *)
    assert (Hnz : e' <> 0).
    { subst e'. destruct (Hposix _ _ _ Esock) as (e & He & Hpos).
      unfold leave_errno. rewrite He. cbn [errno]. lia. }
    repeat split; intros; try assumption; try contradiction.
    destruct H as (? & ? & ? & [Hin | [Hin | [Hin | []]]]);
      discriminate Hin.
  - (* resolver failure *)
    assert (Hnz : normalized rc' <> 0) by (apply Hnorm; assumption).
    repeat split; intros; try assumption; try contradiction.
    destruct H as (? & ? & ? & [Hin | [Hin | [Hin | [Hin | []]]]]);
      discriminate Hin.
  - (* every candidate rejected *)
    assert (Hnz : ENOTCONN <> 0) by lia.
    assert (Hnone : forallb (fun e => negb (is_connected e))
                      (prologue W host port pe' fd'
                       ++ map (attempt W fd') cands') = true).
    { cbn [prologue app forallb is_connected negb andb].
      apply forallb_forall. intros e He.
      apply in_attempts in He as (ai & Hai & ->).
      rewrite Forall_forall in Erej. specialize (Erej ai Hai).
      cbn [attempt is_connected]. apply Z.eqb_neq in Erej. now rewrite Erej. }
    repeat split; intros; try assumption; try contradiction.
    destruct H as (fd & addr & len & Hin).
    rewrite forallb_forall in Hnone. specialize (Hnone _ Hin).
    discriminate Hnone.
  - (* connected *)
    repeat split; intros; try reflexivity; try contradiction;
      same_world; try congruence.
    + exists (rv (socket_r W AF_INET SOCK_STREAM (p_proto pe'))),
        (ai_addr a), (ai_addrlen a).
      apply in_or_app. right. rewrite map_app. apply in_or_app. right.
      left. unfold attempt. now rewrite Eacc.
    + rewrite Eres in H1. now apply H1.
    + exfalso. eapply rejected_not_accepted; eassumption.
Qed.

(** C7, as the code has it.  A call makes at most one socket() call: none
    when the protocol lookup fails, one otherwise, and that one creates the
    only socket of the call when it succeeds.  The call closes nothing, and
    every connect() it makes is on that one socket: a failed attempt
    neither closes nor replaces it. *)
Theorem tcpdial_one_socket_reused (host port : string) (s : state) :
  (getprotobyname_r W "tcp" = None ->
   filter is_socket (emitted W host port s) = []) /\
  (forall pe, getprotobyname_r W "tcp" = Some pe ->
     filter is_socket (emitted W host port s) =
       [EvSocket AF_INET SOCK_STREAM (p_proto pe)
          (rv (socket_r W AF_INET SOCK_STREAM (p_proto pe)))] /\
     (rv (socket_r W AF_INET SOCK_STREAM (p_proto pe)) <> -1 ->
      sockets_created (emitted W host port s) =
        [rv (socket_r W AF_INET SOCK_STREAM (p_proto pe))])) /\
  forallb (fun e => negb (is_close e)) (emitted W host port s) = true /\
  (forall fd addr len r,
     In (EvConnect fd addr len r) (emitted W host port s) ->
     sockets_created (emitted W host port s) = [fd]).
Proof.
  by_path W host port s.
  - (* no protocol entry *)
    repeat split; intros; same_world; try reflexivity.
    destruct H as [Hin | []]; discriminate Hin.
  - (* no socket *)
    repeat split; intros; same_world; try reflexivity; try congruence.
    + cbn. now rewrite Esock.
    + destruct H as [Hin | [Hin | [Hin | []]]]; discriminate Hin.
  - (* resolver failure *)
    apply Z.eqb_neq in Efd as Hb.
    repeat split; intros; same_world; try reflexivity.
    + cbn. now rewrite Hb.
    + exfalso. eapply in_prologue_not_connect; eassumption.
  - (* every candidate rejected *)
    apply Z.eqb_neq in Efd as Hb.
    assert (Hone : sockets_created
                     (prologue W host port pe' fd'
                      ++ map (attempt W fd') cands') = [fd']).
    { cbn [prologue app sockets_created]. rewrite Hb.
      now rewrite sockets_created_attempts. }
    repeat split; intros; same_world; try assumption.
    + cbn [prologue app filter is_socket].
      now rewrite filter_socket_attempts.
    + cbn [prologue app forallb is_close negb andb].
      apply attempts_not_close.
    + rewrite Hone. apply in_app_or in H as [Hin | Hin].
      * exfalso. eapply in_prologue_not_connect; eassumption.
      * apply in_attempts in Hin as (ai & _ & Hin).
        injection Hin as -> _ _ _. reflexivity.
  - (* connected *)
    apply Z.eqb_neq in Efd as Hb.
    assert (Hone : sockets_created
                     (prologue W host port pe' fd'
                      ++ map (attempt W fd') (pre ++ [a])) = [fd']).
    { cbn [prologue app sockets_created]. rewrite Hb.
      now rewrite sockets_created_attempts. }
    repeat split; intros; same_world; try assumption.
    + cbn [prologue app filter is_socket].
      now rewrite filter_socket_attempts.
    + cbn [prologue app forallb is_close negb andb].
      apply attempts_not_close.
    + rewrite Hone. apply in_app_or in H as [Hin | Hin].
      * exfalso. eapply in_prologue_not_connect; eassumption.
      * apply in_attempts in Hin as (ai & _ & Hin).
        injection Hin as -> _ _ _. reflexivity.
Qed.

(** C8.  Every resolution request of a call is for the host and port of
    the call, with hints that are zero except for three fields: the family
    is AF_UNSPEC, the socket type is SOCK_STREAM and the protocol is the
    number of the tcp entry found by the protocol lookup.  It is the only
    request of the call, and the connect attempts of the call go through a
    prefix of the chain it returned, in the order of the chain, whatever
    the families of the candidates. *)
Theorem tcpdial_resolution_request
  (host port : string) (s : state)
  (node service : string) (hints : addrinfo) (rc : Z) (res : list addrinfo) :
  In (EvGetaddrinfo node service hints rc res) (emitted W host port s) ->
  node = host /\ service = port /\
  ai_family hints = AF_UNSPEC /\
  ai_socktype hints = SOCK_STREAM /\
  (exists pe, getprotobyname_r W "tcp" = Some pe /\
              ai_protocol hints = p_proto pe) /\
  ai_flags hints = 0 /\ ai_addrlen hints = 0 /\
  ai_addr hints = None /\ ai_canonname hints = None /\
  getaddrinfo_r W host port hints = (rc, res) /\
  filter is_getaddrinfo (emitted W host port s) =
    [EvGetaddrinfo node service hints rc res] /\
  exists fd n,
    filter is_connect (emitted W host port s) =
      map (attempt W fd) (firstn n res).
Proof.
  by_path W host port s; intros Hin.
  - destruct Hin as [Hin | []]; discriminate Hin.
  - destruct Hin as [Hin | [Hin | [Hin | []]]]; discriminate Hin.
  - rewrite <- (app_nil_r (prologue _ _ _ _ _)) in Hin.
    apply (in_prologue_getaddrinfo W host port pe' fd' []) in Hin
      as (-> & -> & -> & Hg).
    repeat split; try assumption.
    + now exists pe'.
    + cbn. now rewrite Hg.
    + now exists fd', 0%nat.
  - apply in_prologue_getaddrinfo in Hin as (-> & -> & -> & Hg).
    assert (res = cands') by congruence. subst res.
    repeat split; try assumption.
    + now exists pe'.
    + cbn [prologue app filter is_getaddrinfo].
      rewrite filter_getaddrinfo_attempts. now rewrite Hg.
    + exists fd', (List.length cands').
      cbn [prologue app filter is_connect].
      now rewrite filter_connect_attempts, firstn_all.
  - apply in_prologue_getaddrinfo in Hin as (-> & -> & -> & Hg).
    assert (res = pre ++ a :: post) by congruence. subst res.
    repeat split; try assumption.
    + now exists pe'.
    + cbn [prologue app filter is_getaddrinfo].
      rewrite filter_getaddrinfo_attempts. now rewrite Hg.
    + exists fd', (S (List.length pre)).
      cbn [prologue app filter is_connect].
      now rewrite filter_connect_attempts, firstn_through.
Qed.

(** C9.  Every connect attempt of a call is made on the descriptor
    returned by the one socket() call of the call, whose domain argument is
    AF_INET, while the one resolution request of the call has family
    AF_UNSPEC.  The attempt is on the address of a candidate of the resolved
    chain, and the attempts of the call are the candidates of an initial
    part of the chain, each tried once and in order on that descriptor:
    the family of a candidate plays no part, and when every candidate
    rejects the whole chain is tried. *)
Theorem tcpdial_connects_on_inet_socket
  (host port : string) (s : state)
  (fd : Z) (addr : option sockaddr) (len r : Z) :
  In (EvConnect fd addr len r) (emitted W host port s) ->
  exists pe cands,
    getprotobyname_r W "tcp" = Some pe /\
    filter is_socket (emitted W host port s) =
      [EvSocket AF_INET SOCK_STREAM (p_proto pe) fd] /\
    filter is_getaddrinfo (emitted W host port s) =
      [EvGetaddrinfo host port (tcphints pe) 0 cands] /\
    ai_family (tcphints pe) = AF_UNSPEC /\
    (exists ai, In ai cands /\ EvConnect fd addr len r = attempt W fd ai) /\
    exists tried rest,
      cands = tried ++ rest /\
      filter is_connect (emitted W host port s) =
        map (attempt W fd) tried /\
      (Forall (rejects W fd) cands -> rest = []).
Proof.
  by_path W host port s; intros Hin.
  - destruct Hin as [Hin | []]; discriminate Hin.
  - destruct Hin as [Hin | [Hin | [Hin | []]]]; discriminate Hin.
  - exfalso. eapply in_prologue_not_connect; eassumption.
  - apply in_app_or in Hin as [Hin | Hin];
      [exfalso; eapply in_prologue_not_connect; eassumption|].
    apply in_attempts in Hin as (ai & Hai & Hev).
    assert (fd' = fd) by (unfold attempt in Hev; congruence). subst fd.
    exists pe', cands'. repeat split; try assumption.
    + cbn [prologue app filter is_socket].
      now rewrite filter_socket_attempts.
    + cbn [prologue app filter is_getaddrinfo].
      rewrite filter_getaddrinfo_attempts. now rewrite Eres.
    + now exists ai.
    + exists cands', []. repeat split.
      * now rewrite app_nil_r.
      * cbn [prologue app filter is_connect].
        now rewrite filter_connect_attempts.
  - apply in_app_or in Hin as [Hin | Hin];
      [exfalso; eapply in_prologue_not_connect; eassumption|].
    apply in_attempts in Hin as (ai & Hai & Hev).
    assert (fd' = fd) by (unfold attempt in Hev; congruence). subst fd.
    exists pe', (pre ++ a :: post). repeat split; try assumption.
    + cbn [prologue app filter is_socket].
      now rewrite filter_socket_attempts.
    + cbn [prologue app filter is_getaddrinfo].
      rewrite filter_getaddrinfo_attempts. now rewrite Eres.
    + exists ai. split; [|exact Hev].
      apply in_app_or in Hai as [Hai | [<- | []]];
        apply in_or_app; [now left | now right; left].
    + exists (pre ++ [a]), post. repeat split.
      * now rewrite <- app_assoc.
      * cbn [prologue app filter is_connect].
        now rewrite filter_connect_attempts.
      * intros Hall. exfalso.
        eapply rejected_not_accepted; eassumption.
Qed.

(** C10.  The one store into [*conn] follows the socket() call directly and
    stores what that call returned; everything the call does after it is
    getaddrinfo() and connect() calls, so the store precedes the resolution
    and every connect attempt and nothing overwrites it: whenever the
    protocol lookup succeeds, [*conn] holds the result of socket() at the
    return, on the failure exits as on success.  The call makes no store
    into [*conn] exactly when the protocol lookup fails, and then [*conn]
    is as it was. *)
Theorem tcpdial_stores_conn_at_creation (host port : string) (s : state) :
  (forall pe, getprotobyname_r W "tcp" = Some pe ->
     let fd := rv (socket_r W AF_INET SOCK_STREAM (p_proto pe)) in
     conn (final W host port s) = fd /\
     exists rest,
       emitted W host port s =
         [EvGetprotobyname "tcp" (Some pe);
          EvSocket AF_INET SOCK_STREAM (p_proto pe) fd;
          EvStoreConn fd] ++ rest /\
       forallb (fun e => is_getaddrinfo e || is_connect e) rest = true) /\
  (getprotobyname_r W "tcp" = None ->
     conn (final W host port s) = conn s /\
     returned W host port s = ENOPROTOOPT) /\
  (filter is_store (emitted W host port s) = [] <->
   getprotobyname_r W "tcp" = None).
Proof.
  by_path W host port s.
  - (* no protocol entry *)
    repeat split; intros; same_world; try reflexivity; try assumption.
  - (* no socket *)
    repeat split; intros; same_world; try congruence; try discriminate.
    exists (@nil event). rewrite Esock. now split.
  - (* resolver failure *)
    repeat split; intros; same_world; try discriminate; try reflexivity.
    eexists. split; [reflexivity|]. reflexivity.
  - (* every candidate rejected *)
    repeat split; intros; same_world; try discriminate; try reflexivity.
    eexists. split; [reflexivity|].
    cbn [forallb is_getaddrinfo is_connect orb andb].
    apply attempts_are_connects.
  - (* connected *)
    repeat split; intros; same_world; try discriminate; try reflexivity.
    eexists. split; [reflexivity|].
    cbn [forallb is_getaddrinfo is_connect orb andb].
    apply attempts_are_connects.
Qed.

End DialProperties.

(** * Concrete runs *)

(** Dialing "localhost" on the host where only the IPv4 loopback answers:
    the IPv6 candidate is tried first and fails, the IPv4 one connects. *)
Example dial_localhost :
  returned (P:=linux) host_up "localhost" "9090" fresh = 0 /\
  conn (final (P:=linux) host_up "localhost" "9090" fresh) = 3 /\
  filter is_connect (emitted (P:=linux) host_up "localhost" "9090" fresh) =
    [EvConnect 3 (ai_addr loopback6) 28 (-1);
     EvConnect 3 (ai_addr loopback4) 16 0].
Proof. repeat split. Qed.

(** Dialing a name that does not resolve: EAI_NONAME becomes EINVAL. *)
Example dial_nowhere :
  returned (P:=linux) host_up "nowhere" "9090" fresh = 22 /\
  errno (final (P:=linux) host_up "nowhere" "9090" fresh) = 22.
Proof. repeat split. Qed.

(** Dialing when nothing listens: ENOTCONN after both candidates. *)
Example dial_refused :
  returned (P:=linux) host_refusing "localhost" "9090" fresh = 107 /\
  List.length
    (filter is_connect
       (emitted (P:=linux) host_refusing "localhost" "9090" fresh)) = 2%nat.
Proof. repeat split. Qed.

(** Dialing when socket() fails: its error number comes back and [*conn]
    holds -1. *)
Example dial_without_sockets :
  returned (P:=linux) host_without_sockets "localhost" "9090" fresh = 13 /\
  conn (final (P:=linux) host_without_sockets "localhost" "9090" fresh) = -1.
Proof. repeat split. Qed.

(** C1 at "localhost" on [host_up]. *)
Lemma tcpdial_connects_to_first_accepting_witness :
  exists pre a post,
    [loopback6; loopback4] = pre ++ a :: post /\
    Forall (rejects host_up 3) pre /\
    accepts host_up 3 a /\
    emitted (P:=linux) host_up "localhost" "9090" fresh =
      prologue (P:=linux) host_up "localhost" "9090" tcp_entry 3
      ++ map (attempt host_up 3) (pre ++ [a]) /\
    conn (final (P:=linux) host_up "localhost" "9090" fresh) = 3 /\
    returned (P:=linux) host_up "localhost" "9090" fresh = 0.
Proof.
  apply (tcpdial_connects_to_first_accepting (P:=linux) host_up
           "localhost" "9090" fresh tcp_entry 3 [loopback6; loopback4]).
  - reflexivity.
  - reflexivity.
  - discriminate.
  - reflexivity.
  - apply Exists_cons_tl, Exists_cons_hd. reflexivity.
Defined.

(** C2 at "localhost" on [host_refusing]. *)
Lemma tcpdial_not_connected_witness :
  returned (P:=linux) host_refusing "localhost" "9090" fresh = 107 /\
  errno (final (P:=linux) host_refusing "localhost" "9090" fresh) = 107 /\
  emitted (P:=linux) host_refusing "localhost" "9090" fresh =
    prologue (P:=linux) host_refusing "localhost" "9090" tcp_entry 3
    ++ map (attempt host_refusing 3) [loopback6; loopback4].
Proof.
  apply (tcpdial_not_connected (P:=linux) host_refusing
           "localhost" "9090" fresh tcp_entry 3 [loopback6; loopback4]).
  - reflexivity.
  - reflexivity.
  - discriminate.
  - reflexivity.
  - repeat constructor; discriminate.
Defined.

(** C3 at "nowhere" on [host_up], where the resolver answers EAI_NONAME. *)
Lemma tcpdial_resolver_failure_witness :
  errno (final (P:=linux) host_up "nowhere" "9090" fresh) =
    returned (P:=linux) host_up "nowhere" "9090" fresh /\
  (-2 = -3 -> returned (P:=linux) host_up "nowhere" "9090" fresh = 101) /\
  (-2 = -4 -> returned (P:=linux) host_up "nowhere" "9090" fresh = 100) /\
  (-2 = -10 -> returned (P:=linux) host_up "nowhere" "9090" fresh = 12) /\
  (-2 = -2 \/ -2 = -8 ->
   returned (P:=linux) host_up "nowhere" "9090" fresh = 22) /\
  (~ In (-2) [-3; -4; -10; -2; -8] ->
   returned (P:=linux) host_up "nowhere" "9090" fresh = -2).
Proof.
  apply (tcpdial_resolver_failure (P:=linux) host_up
           "nowhere" "9090" fresh tcp_entry 3 (-2)).
  - unfold labels_distinct. cbn.
    repeat (constructor; [cbn; intuition discriminate|]). constructor.
  - reflexivity.
  - reflexivity.
  - discriminate.
  - reflexivity.
  - discriminate.
Defined.

(** C4: after the failed resolution of "nowhere" and after the refused
    connects of "localhost", descriptor 3 is still open. *)
Lemma tcpdial_closes_socket_on_failure_counterexample :
  ~ closes_socket_on_failure (P:=linux) host_up "nowhere" "9090" fresh /\
  ~ closes_socket_on_failure (P:=linux) host_refusing "localhost" "9090"
      fresh.
Proof.
  split; intros H; apply (H ltac:(discriminate) 3); now left.
Qed.

(** C4 as the code has it, at "nowhere" on [host_up]. *)
Lemma tcpdial_failure_leaves_socket_open_witness :
  sockets_created (emitted (P:=linux) host_up "nowhere" "9090" fresh) = [3] /\
  forallb (fun e => negb (is_close e))
    (emitted (P:=linux) host_up "nowhere" "9090" fresh) = true /\
  In 3 (open_fds (trace (final (P:=linux) host_up "nowhere" "9090" fresh))) /\
  conn (final (P:=linux) host_up "nowhere" "9090" fresh) = 3.
Proof.
  apply (tcpdial_failure_leaves_socket_open (P:=linux) host_up
           "nowhere" "9090" fresh tcp_entry 3).
  - reflexivity.
  - reflexivity.
  - discriminate.
  - discriminate.
Defined.

(** C6 on [host_without_protocols]. *)
Lemma tcpdial_protocol_unavailable_witness :
  returned (P:=linux) host_without_protocols "localhost" "9090" fresh = 92 /\
  errno (final (P:=linux) host_without_protocols "localhost" "9090" fresh)
    = 92 /\
  emitted (P:=linux) host_without_protocols "localhost" "9090" fresh =
    [EvGetprotobyname "tcp" None] /\
  sockets_created
    (emitted (P:=linux) host_without_protocols "localhost" "9090" fresh)
    = [] /\
  filter is_socket
    (emitted (P:=linux) host_without_protocols "localhost" "9090" fresh)
    = [] /\
  filter is_getaddrinfo
    (emitted (P:=linux) host_without_protocols "localhost" "9090" fresh)
    = [] /\
  conn (final (P:=linux) host_without_protocols "localhost" "9090" fresh)
    = 42.
Proof.
  apply (tcpdial_protocol_unavailable (P:=linux) host_without_protocols
           "localhost" "9090" fresh).
  reflexivity.
Defined.

(** C7: on the host without a tcp entry the call creates no socket. *)
Lemma tcpdial_creates_one_socket_counterexample :
  ~ creates_one_socket (P:=linux) host_without_protocols "localhost" "9090"
      fresh.
Proof. intros [fd H]. discriminate H. Qed.

(** C5 at "localhost" on [host_up], where the call connects, and on
    [host_without_sockets], where socket() fails. *)
Lemma tcpdial_zero_iff_connected_witness :
  (returned (P:=linux) host_up "localhost" "9090" fresh = 0 <->
   connection_established (P:=linux) host_up "localhost" "9090" fresh) /\
  (returned (P:=linux) host_without_sockets "localhost" "9090" fresh = 0 <->
   connection_established (P:=linux) host_without_sockets "localhost" "9090"
     fresh).
Proof.
  split.
  - apply (tcpdial_zero_iff_connected (P:=linux) host_up
             "localhost" "9090" fresh).
    + unfold errors_positive. cbn. repeat split.
    + intros d t p H. discriminate H.
  - apply (tcpdial_zero_iff_connected (P:=linux) host_without_sockets
             "localhost" "9090" fresh).
    + unfold errors_positive. cbn. repeat split.
    + intros d t p _. exists 13. split; reflexivity.
Defined.

(** C8 at "localhost" on [host_up]. *)
Lemma tcpdial_resolution_request_witness :
  ai_family (tcphints (P:=linux) tcp_entry) = 0 /\
  ai_socktype (tcphints (P:=linux) tcp_entry) = 1 /\
  ai_protocol (tcphints (P:=linux) tcp_entry) = 6 /\
  exists fd n,
    filter is_connect (emitted (P:=linux) host_up "localhost" "9090" fresh) =
      map (attempt host_up fd) (firstn n [loopback6; loopback4]).
Proof.
  destruct (tcpdial_resolution_request (P:=linux) host_up
              "localhost" "9090" fresh
              "localhost" "9090" (tcphints (P:=linux) tcp_entry) 0
              [loopback6; loopback4])
    as (_ & _ & Hfam & Htype & _ & _ & _ & _ & _ & _ & _ & Horder).
  - right; right; right; left. reflexivity.
  - split; [exact Hfam|]. split; [exact Htype|].
    split; [reflexivity | exact Horder].
Defined.

(** C9 at "localhost" on [host_up]: the IPv6 candidate is tried on the
    AF_INET socket. *)
Lemma tcpdial_connects_on_inet_socket_witness :
  ai_family loopback6 = 10 /\
  exists pe cands,
    getprotobyname_r host_up "tcp" = Some pe /\
    filter is_socket (emitted (P:=linux) host_up "localhost" "9090" fresh) =
      [EvSocket 2 1 (p_proto pe) 3] /\
    filter is_getaddrinfo
      (emitted (P:=linux) host_up "localhost" "9090" fresh) =
      [EvGetaddrinfo "localhost" "9090" (tcphints (P:=linux) pe) 0 cands] /\
    ai_family (tcphints (P:=linux) pe) = 0 /\
    (exists ai, In ai cands /\
                EvConnect 3 (ai_addr loopback6) 28 (-1) =
                attempt host_up 3 ai) /\
    exists tried rest,
      cands = tried ++ rest /\
      filter is_connect (emitted (P:=linux) host_up "localhost" "9090" fresh)
        = map (attempt host_up 3) tried /\
      (Forall (rejects host_up 3) cands -> rest = []).
Proof.
  split; [reflexivity|].
  apply (tcpdial_connects_on_inet_socket (P:=linux) host_up
           "localhost" "9090" fresh 3 (ai_addr loopback6) 28 (-1)).
  right; right; right; right; left. reflexivity.
Defined.

(** * Further properties of [tcpdial] *)

Section Loop.

Context {P : Platform}.
Variable W : World.

Lemma leave_errno_value (r : sysret) (s : state) :
  errno (leave_errno r s) =
  match sets_errno r with Some e => e | None => errno s end.
Proof. unfold leave_errno; destruct (sets_errno r); reflexivity. Qed.

(** The loop on a chain that rejects throughout, with the value it leaves
    in [errno]. *)
Lemma connect_loop_rejected_errno (cands : list addrinfo) :
  forall s, Forall (rejects W (conn s)) cands ->
  connect_loop W cands s =
  ([], {| errno := errno_after W (conn s) cands (errno s); conn := conn s;
          trace := trace s ++ map (attempt W (conn s)) cands |}).
Proof.
  induction cands as [|ai rest IH]; intros s Hrej.
  - destruct s; cbn. now rewrite app_nil_r.
  - inversion Hrej as [|? ? Hai Hrest]; subst.
    cbn [connect_loop]. unfold bind at 1, load_conn.
    unfold bind at 1, connect.
    fold (connect_rv W (conn s) ai).
    apply Z.eqb_neq in Hai as Hb. rewrite Hb. cbn [negb].
    set (s1 := log _ _).
    assert (Hc : conn s1 = conn s) by (subst s1; cbn; apply leave_errno_conn).
    assert (Ht : trace s1 = trace s ++ [attempt W (conn s) ai])
      by (subst s1; cbn; now rewrite leave_errno_trace).
    assert (He : errno s1 = errno_after W (conn s) [ai] (errno s))
      by (subst s1; cbn; apply leave_errno_value).
    rewrite IH by now rewrite Hc.
    rewrite Hc, Ht, He, <- app_assoc. reflexivity.
Qed.

(** The loop on a chain whose first accepting candidate is [a], with the
    value it leaves in [errno]. *)
Lemma connect_loop_accepted_errno (pre : list addrinfo) (a : addrinfo)
  (post : list addrinfo) :
  forall s, Forall (rejects W (conn s)) pre -> accepts W (conn s) a ->
  connect_loop W (pre ++ a :: post) s =
  (a :: post,
   {| errno := errno_after W (conn s) (pre ++ [a]) (errno s); conn := conn s;
      trace := trace s ++ map (attempt W (conn s)) (pre ++ [a]) |}).
Proof.
  induction pre as [|ai rest IH]; intros s Hrej Hacc.
  - cbn [app connect_loop]. unfold bind at 1, load_conn.
    unfold bind at 1, connect.
    fold (connect_rv W (conn s) a).
    unfold accepts in Hacc. rewrite Hacc. cbn [Z.eqb negb].
    unfold ret, log. cbn [errno conn trace map].
    rewrite leave_errno_conn, leave_errno_trace, leave_errno_value.
    unfold attempt. rewrite Hacc. reflexivity.
  - inversion Hrej as [|? ? Hai Hrest]; subst.
    cbn [app connect_loop]. unfold bind at 1, load_conn.
    unfold bind at 1, connect.
    fold (connect_rv W (conn s) ai).
    apply Z.eqb_neq in Hai as Hb. rewrite Hb. cbn [negb].
    set (s1 := log _ _).
    assert (Hc : conn s1 = conn s) by (subst s1; cbn; apply leave_errno_conn).
    assert (Ht : trace s1 = trace s ++ [attempt W (conn s) ai])
      by (subst s1; cbn; now rewrite leave_errno_trace).
    assert (He : errno s1 = errno_after W (conn s) [ai] (errno s))
      by (subst s1; cbn; apply leave_errno_value).
    rewrite IH by now rewrite Hc.
    rewrite Hc, Ht, He, <- app_assoc. reflexivity.
Qed.

(** Once the protocol lookup, the socket creation and the resolution have
    succeeded, what is left of [tcpdial] is the loop and the test after it,
    entered with [errno] cleared by the resolver's 0. *)
Lemma tcpdial_resolved (host port : string) (s : state) (pe : protoent)
  (fd : Z) (cands : list addrinfo) :
  getprotobyname_r W "tcp" = Some pe ->
  rv (socket_r W AF_INET SOCK_STREAM (p_proto pe)) = fd ->
  fd <> -1 ->
  getaddrinfo_r W host port (tcphints pe) = (0, cands) ->
  tcpdial W host port s =
  (addri <- connect_loop W cands ;;
   match addri with
   | [] => store_errno ENOTCONN ;; load_errno
   | _ :: _ => ret 0
   end)
    {| errno := 0; conn := fd;
       trace := trace s ++ prologue W host port pe fd |}.
Proof.
  intros Hproto Hsock Hfd Hres.
  unfold tcpdial.
  unfold bind at 1, getprotobyname. rewrite Hproto.
  unfold bind at 1, socket.
  unfold bind at 1, store_conn.
  unfold bind at 1, load_conn. cbn [conn].
  rewrite Hsock. apply Z.eqb_neq in Hfd as Hb. rewrite Hb.
  unfold bind at 1, getaddrinfo.
  unfold bind at 1, store_errno.
  unfold bind at 1, load_errno.
  unfold log. cbn [errno conn trace fst snd].
  rewrite leave_errno_trace. cbn [trace].
  rewrite Hres. cbn [fst snd Z.eqb negb].
  unfold prologue. rewrite Hres. cbn [fst snd].
  rewrite <- !app_assoc. reflexivity.
Qed.

End Loop.

Section Further.

Context {P : Platform}.
Variable W : World.

(** Attempts on candidates that reject are not successful connects. *)
Lemma rejected_attempts_not_connected (fd : Z) (cands : list addrinfo) :
  Forall (rejects W fd) cands ->
  forallb (fun e => negb (is_connected e)) (map (attempt W fd) cands) = true.
Proof.
  induction 1 as [|ai l Hai _ IH]; [reflexivity|].
  cbn [map forallb attempt is_connected].
  apply Z.eqb_neq in Hai. unfold connect_rv in Hai |- *.
  now rewrite Hai, IH.
Qed.


(** Whenever the call returns a value other than 0, that value is also the
    value of [errno] at the return. *)
Theorem tcpdial_failure_sets_errno (host port : string) (s : state) :
  returned W host port s <> 0 ->
  errno (final W host port s) = returned W host port s.
Proof.
  by_path W host port s; intros Hret; try reflexivity.
  now contradiction Hret.
Qed.

(** On a POSIX platform a call that returns 0 leaves in [*conn] the
    descriptor returned by its socket() call, which is not -1 and is open;
    the last thing the call did is a connect() on that descriptor that
    returned 0, no earlier connect() of the call returned 0, and the call
    closed nothing. *)
Theorem tcpdial_success_handle (host port : string) (s : state) :
  errors_positive P ->
  posix_world W ->
  returned W host port s = 0 ->
  exists pe evs addr len,
    getprotobyname_r W "tcp" = Some pe /\
    conn (final W host port s) =
      rv (socket_r W AF_INET SOCK_STREAM (p_proto pe)) /\
    conn (final W host port s) <> -1 /\
    In (conn (final W host port s)) (open_fds (trace (final W host port s))) /\
    emitted W host port s =
      evs ++ [EvConnect (conn (final W host port s)) addr len 0] /\
    forallb (fun e => negb (is_connected e)) evs = true /\
    forallb (fun e => negb (is_close e)) (emitted W host port s) = true.
Proof.
  intros (Hproto & Hunreach & Hdown & Hmem & Hinval & Hnotconn) Hposix.
  by_path W host port s; intros Hret.
  - lia.
  - exfalso. subst e'. destruct (Hposix _ _ _ Esock) as (e & He & Hpos).
    rewrite leave_errno_value, He in Hret. lia.
  - exfalso.
    destruct (normalized_cases rc') as [E | [E | [E | [E | E]]]];
      rewrite E in Hret; lia.
  - lia.
  - exists pe', (prologue W host port pe' fd' ++ map (attempt W fd') pre),
      (ai_addr a), (ai_addrlen a).
    repeat split; try assumption.
    + now symmetry.
    + apply open_fds_prologue; [exact Efd | apply attempts_not_close].
    + rewrite map_app, app_assoc. cbn [map]. unfold attempt.
      now rewrite Eacc.
    + cbn [prologue app forallb is_connected negb andb].
      now apply rejected_attempts_not_connected.
    + cbn [prologue app forallb is_close negb andb].
      apply attempts_not_close.
Qed.

(** A call that connects returns 0 without clearing [errno]: [errno] is 0
    (the resolver's return value) overwritten by whatever the connect
    attempts of the call wrote, the latest last.  So when the accepting
    connect() leaves [errno] alone, [errno] at the return is 0 if the first
    candidate accepted, and the error number of the last rejected attempt
    if that attempt wrote one. *)
Theorem tcpdial_success_errno
  (host port : string) (s : state) (pe : protoent) (fd : Z)
  (pre : list addrinfo) (a : addrinfo) (post : list addrinfo) :
  getprotobyname_r W "tcp" = Some pe ->
  rv (socket_r W AF_INET SOCK_STREAM (p_proto pe)) = fd ->
  fd <> -1 ->
  getaddrinfo_r W host port (tcphints pe) = (0, pre ++ a :: post) ->
  Forall (rejects W fd) pre ->
  accepts W fd a ->
  returned W host port s = 0 /\
  errno (final W host port s) = errno_after W fd (pre ++ [a]) 0 /\
  (sets_errno (connect_r W fd (ai_addr a) (ai_addrlen a)) = None ->
   (pre = [] -> errno (final W host port s) = 0) /\
   (forall pre' b e,
      pre = pre' ++ [b] ->
      sets_errno (connect_r W fd (ai_addr b) (ai_addrlen b)) = Some e ->
      errno (final W host port s) = e)).
Proof.
  intros Hproto Hsock Hfd Hres Hrej Hacc.
  assert (E : tcpdial W host port s =
              (0, {| errno := errno_after W fd (pre ++ [a]) 0; conn := fd;
                     trace := (trace s ++ prologue W host port pe fd)
                              ++ map (attempt W fd) (pre ++ [a]) |})).
  { rewrite (tcpdial_resolved W host port s pe fd _ Hproto Hsock Hfd Hres).
    unfold bind at 1.
    now rewrite connect_loop_accepted_errno by assumption. }
  unfold returned, final. rewrite E. cbn [fst snd errno].
  split; [reflexivity|]. split; [reflexivity|].
  intros Ha. split.
  - intros ->. unfold errno_after. cbn [app fold_left]. cbv beta.
    now rewrite Ha.
  - intros pre' b e -> Hb. unfold errno_after.
    rewrite !fold_left_app. cbn [fold_left]. cbv beta.
    now rewrite Hb, Ha.
Qed.

(** Two runs of [tcpdial] whose resolver answers are the same agree on the
    value returned, on the connect attempts made and, unless the protocol
    lookup fails, on the descriptor stored. *)
Lemma dial_path_agree (h1 p1 : string) (s1 : state) (r1 : Z) (t1 : state)
  (h2 p2 : string) (s2 : state) (r2 : Z) (t2 : state) :
  (forall hints, getaddrinfo_r W h1 p1 hints = getaddrinfo_r W h2 p2 hints) ->
  (forall d t p, rv (socket_r W d t p) = -1 ->
     errno (leave_errno (socket_r W d t p) s1) =
     errno (leave_errno (socket_r W d t p) s2)) ->
  dial_path W h1 p1 s1 r1 t1 ->
  dial_path W h2 p2 s2 r2 t2 ->
  r1 = r2 /\
  (getprotobyname_r W "tcp" <> None \/ conn s1 = conn s2 ->
   conn t1 = conn t2) /\
  filter is_connect (skipn (List.length (trace s1)) (trace t1)) =
  filter is_connect (skipn (List.length (trace s2)) (trace t2)) /\
  (h1 = h2 -> p1 = p2 ->
   skipn (List.length (trace s1)) (trace t1) =
   skipn (List.length (trace s2)) (trace t2)).
Proof.
  intros Hsame Herr H1 H2.
  destruct H1; destruct H2;
    repeat match goal with x := _ |- _ => subst x end;
    cbn [errno conn trace]; rewrite ?skipn_length_app;
    try rewrite Hsame in *; same_world;
    try congruence;
    try (exfalso; eapply rejected_not_accepted; eassumption);
    try match goal with
        | H1 : getaddrinfo_r _ _ _ _ = (0, ?l1 ++ ?a1 :: ?q1),
          H2 : getaddrinfo_r _ _ _ _ = (0, ?l2 ++ ?a2 :: ?q2) |- _ =>
            let E := fresh "E" in
            assert (E : l1 ++ a1 :: q1 = l2 ++ a2 :: q2) by congruence;
            eapply first_accepting_unique in E as (? & ? & ?);
            [subst | eassumption ..]
        end;
    (split; [|split; [|split]]);
    intros; subst;
    cbn [prologue app filter is_connect];
    try reflexivity; try congruence;
    try (now apply Herr);
    try solve [intuition congruence].
Qed.

(** The value returned, the calls made and the descriptor stored do not
    depend on what [errno], [*conn] and the trace held before the call, as
    long as a failing socket() sets [errno] (POSIX): nothing stale comes
    back to the caller. *)
Theorem tcpdial_ignores_initial_state (host port : string) (s1 s2 : state) :
  posix_world W ->
  returned W host port s1 = returned W host port s2 /\
  emitted W host port s1 = emitted W host port s2 /\
  (getprotobyname_r W "tcp" <> None ->
   conn (final W host port s1) = conn (final W host port s2)).
Proof.
  intros Hposix.
  assert (Herr : forall d t p, rv (socket_r W d t p) = -1 ->
            errno (leave_errno (socket_r W d t p) s1) =
            errno (leave_errno (socket_r W d t p) s2)).
  { intros d t p Hsr. destruct (Hposix d t p Hsr) as (e & He & _).
    now rewrite !leave_errno_value, He. }
  destruct (dial_path_agree host port s1 _ _ host port s2 _ _
              (fun _ => eq_refl) Herr
              (tcpdial_path W host port s1) (tcpdial_path W host port s2))
    as (Hr & Hc & _ & He).
  split; [exact Hr|]. split; [exact (He eq_refl eq_refl)|].
  intros Hp. apply Hc. now left.
Qed.

(** [tcpdial] does not look into [host] and [port]; it hands them to the
    resolver.  Two calls whose host and port the resolver answers alike
    return the same value, store the same descriptor and make the same
    connect attempts. *)
Theorem tcpdial_host_port_only_resolved
  (host1 port1 host2 port2 : string) (s : state) :
  (forall hints, getaddrinfo_r W host1 port1 hints =
                 getaddrinfo_r W host2 port2 hints) ->
  returned W host1 port1 s = returned W host2 port2 s /\
  conn (final W host1 port1 s) = conn (final W host2 port2 s) /\
  filter is_connect (emitted W host1 port1 s) =
  filter is_connect (emitted W host2 port2 s).
Proof.
  intros Hsame.
  destruct (dial_path_agree host1 port1 s _ _ host2 port2 s _ _
              Hsame (fun _ _ _ _ => eq_refl)
              (tcpdial_path W host1 port1 s) (tcpdial_path W host2 port2 s))
    as (Hr & Hc & Hk & _).
  split; [exact Hr|]. split; [|exact Hk].
  apply Hc. now right.
Qed.

(** The call never asks more of the network than one attempt per resolved
    candidate: when the tcp entry is found, it makes at most as many
    connect() calls as the resolver's chain has candidates and at most four
    other calls and stores, and it makes no connect() at all when the
    resolver reports a failure, whatever chain comes with that answer. *)
Theorem tcpdial_call_budget (host port : string) (s : state)
  (pe : protoent) :
  getprotobyname_r W "tcp" = Some pe ->
  let chain := snd (getaddrinfo_r W host port (tcphints pe)) in
  (List.length (filter is_connect (emitted W host port s))
   <= List.length chain)%nat /\
  (List.length (emitted W host port s)
   <= 4 + List.length (filter is_connect (emitted W host port s)))%nat /\
  (fst (getaddrinfo_r W host port (tcphints pe)) <> 0 ->
   filter is_connect (emitted W host port s) = []).
Proof.
  intros Hproto chain. subst chain.
  by_path W host port s; same_world.
  - cbn. repeat split; lia.
  - cbn. repeat split; lia.
  - rewrite Eres. cbn [snd fst prologue app filter is_connect].
    rewrite filter_connect_attempts.
    cbn [List.length]. rewrite !length_map. repeat split; lia.
  - rewrite Eres. cbn [snd fst prologue app filter is_connect].
    rewrite filter_connect_attempts.
    cbn [List.length]. rewrite !length_map, !length_app.
    cbn [List.length]. repeat split; lia.
Qed.

(** The values a call can return on a POSIX platform: 0, ENOPROTOOPT,
    ENOTCONN, one of the four error numbers of the [switch], the
    resolver's own code, or the error number a failed socket() left in
    [errno]. *)
Theorem tcpdial_return_values (host port : string) (s : state) :
  posix_world W ->
  returned W host port s = 0 \/
  returned W host port s = ENOPROTOOPT \/
  returned W host port s = ENOTCONN \/
  In (returned W host port s) [ENETUNREACH; ENETDOWN; ENOMEM; EINVAL] \/
  (exists pe, getprotobyname_r W "tcp" = Some pe /\
              returned W host port s =
                fst (getaddrinfo_r W host port (tcphints pe))) \/
  (exists pe e, getprotobyname_r W "tcp" = Some pe /\
                rv (socket_r W AF_INET SOCK_STREAM (p_proto pe)) = -1 /\
                sets_errno (socket_r W AF_INET SOCK_STREAM (p_proto pe))
                  = Some e /\
                returned W host port s = e).
Proof.
  intros Hposix.
  by_path W host port s.
  - right; left. reflexivity.
  - do 5 right. destruct (Hposix _ _ _ Esock) as (e & He & _).
    exists pe', e. subst e'. rewrite leave_errno_value, He. now repeat split.
  - destruct (normalized_cases rc') as [E | [E | [E | [E | E]]]];
      rewrite E; cbn [In]; [tauto | tauto | tauto | tauto |].
    do 4 right; left. exists pe'. now split.
  - right; right; left. reflexivity.
  - left. reflexivity.
Qed.

End Further.


(** At "localhost" on [host_refusing]. *)
Lemma tcpdial_failure_sets_errno_witness :
  errno (final (P:=linux) host_refusing "localhost" "9090" fresh) =
  returned (P:=linux) host_refusing "localhost" "9090" fresh.
Proof.
  apply (tcpdial_failure_sets_errno (P:=linux) host_refusing
           "localhost" "9090" fresh).
  discriminate.
Defined.

(** At "localhost" on [host_up]. *)
Lemma tcpdial_success_handle_witness :
  exists pe evs addr len,
    getprotobyname_r host_up "tcp" = Some pe /\
    conn (final (P:=linux) host_up "localhost" "9090" fresh) =
      rv (socket_r host_up 2 1 (p_proto pe)) /\
    conn (final (P:=linux) host_up "localhost" "9090" fresh) <> -1 /\
    In (conn (final (P:=linux) host_up "localhost" "9090" fresh))
       (open_fds (trace (final (P:=linux) host_up "localhost" "9090" fresh)))
    /\
    emitted (P:=linux) host_up "localhost" "9090" fresh =
      evs ++ [EvConnect
                (conn (final (P:=linux) host_up "localhost" "9090" fresh))
                addr len 0] /\
    forallb (fun e => negb (is_connected e)) evs = true /\
    forallb (fun e => negb (is_close e))
      (emitted (P:=linux) host_up "localhost" "9090" fresh) = true.
Proof.
  apply (tcpdial_success_handle (P:=linux) host_up "localhost" "9090" fresh).
  - unfold errors_positive. cbn. repeat split.
  - intros d t p H. discriminate H.
  - reflexivity.
Defined.

(** At "localhost" on [host_up]: the call returns 0 and [errno] holds the
    EAFNOSUPPORT of the rejected IPv6 attempt. *)
Lemma tcpdial_success_errno_witness :
  returned (P:=linux) host_up "localhost" "9090" fresh = 0 /\
  errno (final (P:=linux) host_up "localhost" "9090" fresh) = 97.
Proof.
  destruct (tcpdial_success_errno (P:=linux) host_up "localhost" "9090" fresh
              tcp_entry 3 [loopback6] loopback4 [])
    as (Hr & _ & Hstale).
  - reflexivity.
  - reflexivity.
  - discriminate.
  - reflexivity.
  - repeat constructor. discriminate.
  - reflexivity.
  - split; [exact Hr|].
    apply (proj2 (Hstale eq_refl) [] loopback6 97); reflexivity.
Defined.

(** On [host_without_sockets], from [fresh] and from a state with other
    contents. *)
Lemma tcpdial_ignores_initial_state_witness :
  returned (P:=linux) host_without_sockets "localhost" "9090" fresh =
  returned (P:=linux) host_without_sockets "localhost" "9090"
    {| errno := 5; conn := 7; trace := [EvClose 9] |}.
Proof.
  apply (tcpdial_ignores_initial_state (P:=linux) host_without_sockets
           "localhost" "9090" fresh
           {| errno := 5; conn := 7; trace := [EvClose 9] |}).
  intros d t p _. exists 13. split; reflexivity.
Defined.

(** On [host_up], whose resolver does not look at the service. *)
Lemma tcpdial_host_port_only_resolved_witness :
  returned (P:=linux) host_up "localhost" "9090" fresh =
  returned (P:=linux) host_up "localhost" "http" fresh.
Proof.
  apply (tcpdial_host_port_only_resolved (P:=linux) host_up
           "localhost" "9090" "localhost" "http" fresh).
  intros hints. reflexivity.
Defined.

(** At "localhost" on [host_refusing]: two candidates, two attempts. *)
Lemma tcpdial_call_budget_witness :
  (List.length
     (filter is_connect
        (emitted (P:=linux) host_refusing "localhost" "9090" fresh))
   <= 2)%nat.
Proof.
  apply (tcpdial_call_budget (P:=linux) host_refusing "localhost" "9090"
           fresh tcp_entry).
  reflexivity.
Defined.

(** At "localhost" on [host_without_sockets]. *)
Lemma tcpdial_return_values_witness :
  returned (P:=linux) host_without_sockets "localhost" "9090" fresh = 0 \/
  returned (P:=linux) host_without_sockets "localhost" "9090" fresh = 92 \/
  returned (P:=linux) host_without_sockets "localhost" "9090" fresh = 107 \/
  In (returned (P:=linux) host_without_sockets "localhost" "9090" fresh)
     [101; 100; 12; 22] \/
  (exists pe, getprotobyname_r host_without_sockets "tcp" = Some pe /\
              returned (P:=linux) host_without_sockets "localhost" "9090"
                fresh =
                fst (getaddrinfo_r host_without_sockets "localhost" "9090"
                       (tcphints (P:=linux) pe))) \/
  (exists pe e, getprotobyname_r host_without_sockets "tcp" = Some pe /\
                rv (socket_r host_without_sockets 2 1 (p_proto pe)) = -1 /\
                sets_errno (socket_r host_without_sockets 2 1 (p_proto pe))
                  = Some e /\
                returned (P:=linux) host_without_sockets "localhost" "9090"
                  fresh = e).
Proof.
  apply (tcpdial_return_values (P:=linux) host_without_sockets
           "localhost" "9090" fresh).
  intros d t p _. exists 13. split; reflexivity.
Defined.
